(** * AngularFirestoreCollectionGroup: a shallow embedding

    The facade of [src/firestore/collection-group/collection-group.ts]:
    [stateChanges], [auditTrail], [snapshotChanges], [valueChanges] and
    [get], over the collaborators it imports.

    An observable is embedded as the timeline of what happens on one
    subscription: the values the source emits, interleaved with the moments
    at which the host clears one of its "unstable" markers.  The rxjs
    operators the facade pipes through ([map], [filter], [scan]) are
    timeline transformers; JavaScript arrays are lists, a document's data
    object is a finite map from field names to values. *)

From stdpp Require Import base option list gmap strings.
From Stdlib Require Import ZArith Lia.

Open Scope Z_scope.

(** ** Results of fallible calls *)

Inductive Error : Type :=
| ValidationError
| OrderingViolation.

Inductive Result (A : Type) : Type :=
| Ok (a : A)
| Throw (e : Error).
Arguments Ok {A} a.
Arguments Throw {A} e.

#[global] Instance result_ret : MRet Result := fun _ a => Ok a.

#[global] Instance result_bind : MBind Result := fun _ _ k r =>
  match r with
  | Ok a => k a
  | Throw e => Throw e
  end.

(** ** Data model (firebase and [../interfaces]) *)

(** [DocumentChangeType] is the string union ['added' | 'removed' |
    'modified']: the listener reports only these three, while an [events]
    argument is, at run time, an array of arbitrary strings. *)
Inductive DocumentChangeType : Type := added | removed | modified.

Definition typeName (t : DocumentChangeType) : string :=
  match t with
  | added => "added"
  | removed => "removed"
  | modified => "modified"
  end%string.

Inductive FieldValue : Type :=
| FNull
| FBool (b : bool)
| FNumber (n : Z)
| FString (s : string).

(** [a.id] and [a.data()] of a document snapshot. *)
Record DocumentSnapshot : Type := {
  id : string;
  data : gmap string FieldValue
}.

Record DocumentChange : Type := {
  dc_type : DocumentChangeType;
  doc : DocumentSnapshot;
  oldIndex : Z;
  newIndex : Z
}.

Record DocumentChangeAction : Type := {
  type : DocumentChangeType;
  payload : DocumentChange
}.

(** One raw delta of the listener: [snapshot.docs], [snapshot.docChanges()]. *)
Record QuerySnapshot : Type := {
  docs : list DocumentSnapshot;
  docChanges_of : list DocumentChange
}.

Record Action (A : Type) : Type := { action_payload : A }.
Arguments action_payload {A} _.

(** ** Observables as timelines *)

Inductive tick (A : Type) : Type :=
| Next (a : A)        (* the source emits [a] *)
| MarkerCleared.      (* the host clears one unstable marker *)
Arguments Next {A} a.
Arguments MarkerCleared {A}.

Definition Observable (A : Type) : Type := list (tick A).

(** The values an observable hands to its consumer, in order. *)
Fixpoint emissions {A} (o : Observable A) : list A :=
  match o with
  | [] => []
  | Next a :: o' => a :: emissions o'
  | MarkerCleared :: o' => emissions o'
  end.

(** The marker clearances of a timeline, its values removed. *)
Fixpoint clearances {A} (o : Observable A) : nat :=
  match o with
  | [] => 0%nat
  | Next _ :: o' => clearances o'
  | MarkerCleared :: o' => S (clearances o')
  end.

Fixpoint rx_map {A B} (f : A -> B) (o : Observable A) : Observable B :=
  match o with
  | [] => []
  | Next a :: o' => Next (f a) :: rx_map f o'
  | MarkerCleared :: o' => MarkerCleared :: rx_map f o'
  end.

Fixpoint rx_filter {A} (p : A -> bool) (o : Observable A) : Observable A :=
  match o with
  | [] => []
  | Next a :: o' => if p a then Next a :: rx_filter p o' else rx_filter p o'
  | MarkerCleared :: o' => MarkerCleared :: rx_filter p o'
  end.

(** [scan(f, seed)]: emits [f seed v1], [f (f seed v1) v2], ... *)
Fixpoint rx_scan {A B} (f : B -> A -> B) (seed : B) (o : Observable A) : Observable B :=
  match o with
  | [] => []
  | Next a :: o' => let acc := f seed a in Next acc :: rx_scan f acc o'
  | MarkerCleared :: o' => MarkerCleared :: rx_scan f seed o'
  end.

(** ** JavaScript array helpers *)

Fixpoint indexOf_from (xs : list string) (x : string) (i : Z) : Z :=
  match xs with
  | [] => -1
  | y :: ys => if String.eqb y x then i else indexOf_from ys x (i + 1)
  end.

(** [xs.indexOf(x)]: the first index holding [x], or [-1]. *)
Definition indexOf (xs : list string) (x : string) : Z := indexOf_from xs x 0.

(** ** The execution contexts and the host ([../firestore]) *)

Inductive Scheduler : Type :=
| ZoneOutside   (* background: outside the framework's refresh zone *)
| ZoneInside.   (* foreground: inside it *)

Record Schedulers : Type := {
  outsideAngular : Scheduler;
  insideAngular : Scheduler
}.

(** [unstable] counts the unstable markers outstanding when a subscription
    starts. *)
Record AngularFirestore : Type := {
  schedulers : Schedulers;
  unstable : nat
}.

(** Modelled from the spec: [keepUnstableUntilFirst] is a member of
    [AngularFirestore], whose file is not part of the sources.  Following
    sections 4.4 and 9 it is a countdown of pending markers with a
    single-slot buffer: while the gate is closed and markers are
    outstanding an emission only overwrites the slot; when the countdown
    reaches zero the buffered emission is released; from the first
    delivery on everything passes through. *)
Record Gate (A : Type) : Type := {
  pending : nat;
  slot : option A;
  opened : bool
}.
Arguments pending {A} _.
Arguments slot {A} _.
Arguments opened {A} _.

(** Modelled from the spec: a fresh subscription starts with the gate closed
    and its slot empty (section 9). *)
Definition gate_init {A} (n : nat) : Gate A :=
  {| pending := n; slot := None; opened := false |}.

(** Modelled from the spec: one reaction of the gate, with what it delivers
    (sections 4.4 and 9). *)
Definition gate_step {A} (g : Gate A) (t : tick A) : Gate A * list (tick A) :=
  if opened g then (g, [t])
  else
    match t with
    | Next a =>
        match pending g with
        | O => ({| pending := 0; slot := None; opened := true |}, [Next a])
        | S _ => ({| pending := pending g; slot := Some a; opened := false |}, [])
        end
    | MarkerCleared =>
        match Nat.pred (pending g), slot g with
        | O, Some a =>
            ({| pending := 0; slot := None; opened := true |}, [MarkerCleared; Next a])
        | p, s => ({| pending := p; slot := s; opened := false |}, [MarkerCleared])
        end
    end.

(** Modelled from the spec: the gate over a whole timeline (section 4.4). *)
Fixpoint gate_run {A} (g : Gate A) (o : Observable A) : Observable A :=
  match o with
  | [] => []
  | t :: o' => let '(g', out) := gate_step g t in out ++ gate_run g' o'
  end.

(** Modelled from the spec: [keepUnstableUntilFirst] of [../firestore], the
    gate started with the markers outstanding at subscription (section 4.4). *)
Definition keepUnstableUntilFirst (afs : AngularFirestore) {A} (o : Observable A)
  : Observable A :=
  gate_run (gate_init (unstable afs)) o.

(** ** The query and the streams derived from it ([../observable/fromRef],
    [../collection/changes]) *)

Inductive GetOptions : Type := SourceDefault | SourceServer | SourceCache.

Inductive Settled (A : Type) : Type :=
| Resolved (a : A)
| Rejected (reason : string).
Arguments Resolved {A} a.
Arguments Rejected {A} reason.

(** A query is what the facade can observe of it: the deltas its listener
    delivers over a subscription, and what a one-shot fetch settles to. *)
Record Query : Type := {
  onSnapshot : Observable QuerySnapshot;
  query_get : option GetOptions -> Settled QuerySnapshot
}.

(** Modelled from the spec: [fromCollectionRef] is not part of the sources;
    it wraps each raw delta of the listener as an action. *)
Definition fromCollectionRef (query : Query) (scheduler : Scheduler)
  : Observable (Action QuerySnapshot) :=
  rx_map (fun snap => {| action_payload := snap |}) (onSnapshot query).

(** Modelled from the spec: [docChanges] is not part of the sources; per
    section 4.1 it turns one raw delta into the tagged change records the
    listener reported, in the listener's order. *)
Definition docChanges (query : Query) (scheduler : Scheduler)
  : Observable (list DocumentChangeAction) :=
  rx_map
    (fun action =>
       map (fun change => {| type := dc_type change; payload := change |})
           (docChanges_of (action_payload action)))
    (fromCollectionRef query scheduler).

(** ** The sorted projection ([../collection/changes]) *)

Abbreviation Projection := (list DocumentChangeAction).


Fixpoint insert_nth {A} (n : nat) (x : A) (l : list A) : list A :=
  match n, l with
  | O, _ => x :: l
  | S n', y :: l' => y :: insert_nth n' x l'
  | S _, [] => [x]
  end.

(** Modelled from the spec: deletion at an index, section 4.3; an index
    outside the projection's bounds is the OrderingViolation of section 7. *)
Definition deleteAt (i : Z) (p : Projection) : Result Projection :=
  if bool_decide (0 <= i < Z.of_nat (length p))
  then Ok (delete (Z.to_nat i) p)
  else Throw OrderingViolation.

(** Modelled from the spec: insertion at an index, sections 4.3 and 7. *)
Definition insertAt (i : Z) (x : DocumentChangeAction) (p : Projection)
  : Result Projection :=
  if bool_decide (0 <= i <= Z.of_nat (length p))
  then Ok (insert_nth (Z.to_nat i) x p)
  else Throw OrderingViolation.

(** Modelled from the spec: replacement in place, sections 4.3 and 7. *)
Definition replaceAt (i : Z) (x : DocumentChangeAction) (p : Projection)
  : Result Projection :=
  if bool_decide (0 <= i < Z.of_nat (length p))
  then Ok (<[Z.to_nat i := x]> p)
  else Throw OrderingViolation.

(** Modelled from the spec: the identity of a document is its stable
    per-document key (section 3); two records are about the same document
    when their documents have the same identity. *)
Definition sameDocument (x y : DocumentChangeAction) : bool :=
  String.eqb (id (doc (payload x))) (id (doc (payload y))).

(** Modelled from the spec: what an Added record does at its index,
    sections 4.3 and 7: it inserts, except that on a duplicate identity,
    the element at the given index being the same document, the last write
    wins at the given index and the record overwrites that element
    (section 4.3, edge cases). *)
Definition addAt (i : Z) (x : DocumentChangeAction) (p : Projection)
  : Result Projection :=
  if bool_decide (0 <= i <= Z.of_nat (length p))
  then
    match p !! Z.to_nat i with
    | Some y =>
        if sameDocument y x then Ok (<[Z.to_nat i := x]> p)
        else Ok (insert_nth (Z.to_nat i) x p)
    | None => Ok (insert_nth (Z.to_nat i) x p)
    end
  else Throw OrderingViolation.

(** Modelled from the spec: [combineChange] is not part of the sources;
    section 4.3, step 2 and edge cases. *)
Definition combineChange (combined : Projection) (change : DocumentChangeAction)
  : Result Projection :=
  let old := oldIndex (payload change) in
  let new := newIndex (payload change) in
  match type change with
  | removed => deleteAt old combined
  | added => addAt new change combined
  | modified =>
      if old =? new then replaceAt new change combined
      else combined' ← deleteAt old combined; insertAt new change combined'
  end.

(** Modelled from the spec: [combineChanges] is not part of the sources;
    section 4.3, step 3: the records of a batch strictly in the order given. *)
Fixpoint combineChanges (current : Projection) (changes : list DocumentChangeAction)
  : Result Projection :=
  match changes with
  | [] => Ok current
  | change :: rest => current' ← combineChange current change; combineChanges current' rest
  end.

Definition requested (events : list string) (change : DocumentChangeAction) : bool :=
  indexOf events (typeName (type change)) >? -1.

(** Modelled from the spec: the scan behind [sortedChanges]; section 4.3,
    step 4: a projection is emitted only when the requested kinds intersect
    the batch; section 7: a violation terminates the subscription. *)
Fixpoint project (events : list string) (current : Projection)
    (o : Observable (list DocumentChangeAction)) : Observable Projection :=
  match o with
  | [] => []
  | MarkerCleared :: o' => MarkerCleared :: project events current o'
  | Next changes :: o' =>
      match combineChanges current changes with
      | Ok current' =>
          (if existsb (requested events) changes then [Next current'] else [])
            ++ project events current' o'
      | Throw _ => []
      end
  end.

(** Modelled from the spec: [sortedChanges] is not part of the sources;
    section 4.3, step 1: it starts from the empty sequence. *)
Definition sortedChanges (query : Query) (events : list string) (scheduler : Scheduler)
  : Observable Projection :=
  project events [] (docChanges query scheduler).

(** ** Validation ([../collection/collection]) *)

(** Modelled from the spec: the recognized event kinds (section 6). *)
Definition allEvents : list string := ["added"; "removed"; "modified"]%string.

(** Modelled from the spec: membership in the recognized set (section 6). *)
Definition recognized (kind : string) : bool :=
  existsb (String.eqb kind) allEvents.

(** Modelled from the spec: [validateEventsArray] is not part of the
    sources; sections 6 and 7: the values must be drawn from the three kinds
    or the argument be absent or empty, which stands for all of them. *)
Definition validateEventsArray (events : option (list string)) : Result (list string) :=
  match events with
  | None | Some [] => Ok allEvents
  | Some (e :: es) =>
      if forallb recognized (e :: es) then Ok (e :: es) else Throw ValidationError
  end.

(** ** One-shot delivery: [from(promise)] and [observeOn] *)

Inductive Notification (A : Type) : Type :=
| OnNext (a : A)
| OnError (reason : string)
| OnComplete.
Arguments OnNext {A} a.
Arguments OnError {A} reason.
Arguments OnComplete {A}.

(** [from(promise)]: the settled value and completion, or the failure. *)
Definition from {A} (p : Settled A) : list (Notification A) :=
  match p with
  | Resolved a => [OnNext a; OnComplete]
  | Rejected reason => [OnError reason]
  end.

(** [observeOn(scheduler)]: every notification is delivered on [scheduler]. *)
Definition observeOn {A} (scheduler : Scheduler) (ns : list (Notification A))
  : list (Scheduler * Notification A) :=
  map (pair scheduler) ns.

(** ** The world outside the facade *)

(** What one streaming subscription accumulates. *)
Record Subscription : Type := {
  projection : Projection;
  auditLog : list DocumentChangeAction
}.

(** The one-shot fetches issued to the query so far (latest first) and the
    live subscriptions to its listener, each with its accumulation state. *)
Record World : Type := {
  fetchLog : list (option GetOptions);
  subscriptions : list Subscription
}.

Definition State (A : Type) : Type := World -> A * World.

#[global] Instance state_ret : MRet State := fun _ a w => (a, w).

#[global] Instance state_bind : MBind State := fun _ _ k m w =>
  let '(a, w') := m w in k a w'.

(** [query.get(options)]: issues one fetch and yields what it settles to. *)
Definition Query_get (query : Query) (options : option GetOptions)
  : State (Settled QuerySnapshot) :=
  fun w =>
    (query_get query options,
     {| fetchLog := options :: fetchLog w; subscriptions := subscriptions w |}).

(** [observable.subscribe(...)]: attaches a listener with fresh accumulation
    state and hands the emissions to the consumer. *)
Definition subscribe {A} (o : Observable A) : State (list A) :=
  fun w =>
    (emissions o,
     {| fetchLog := fetchLog w;
        subscriptions := {| projection := []; auditLog := [] |} :: subscriptions w |}).

(** ** JavaScript objects *)

Abbreviation JsObject := (gmap string FieldValue).

(** [{...target, ...source}]: the properties of [source] win. *)
Definition spread (target source : JsObject) : JsObject := source ∪ target.

(** Truthiness of an optional string: [undefined] and [''] are falsy. *)
Definition truthy (s : option string) : bool :=
  match s with
  | None => false
  | Some s => negb (String.eqb s "")
  end.

Record ValueChangesOptions : Type := { idField : option string }.

(** ** The facade *)

Section AngularFirestoreCollectionGroup.

Variable query : Query.
Variable afs : AngularFirestore.

Definition stateChanges (events : option (list string))
  : Observable (list DocumentChangeAction) :=
  match events with
  | None | Some [] =>
      keepUnstableUntilFirst afs
        (docChanges query (outsideAngular (schedulers afs)))
  | Some (e :: es) =>
      let events := e :: es in
      keepUnstableUntilFirst afs
        (rx_filter (fun changes => (0 <? length changes)%nat)
           (rx_map
              (fun actions =>
                 List.filter
                   (fun change => indexOf events (typeName (type change)) >? -1)
                   actions)
              (docChanges query (outsideAngular (schedulers afs)))))
  end.

Definition auditTrail (events : option (list string))
  : Observable (list DocumentChangeAction) :=
  rx_scan (fun current action => current ++ action) [] (stateChanges events).

Definition snapshotChanges (events : option (list string))
  : Result (Observable Projection) :=
  validatedEvents ← validateEventsArray events;
  let scheduledSortedChanges :=
    sortedChanges query validatedEvents (outsideAngular (schedulers afs)) in
  mret (keepUnstableUntilFirst afs scheduledSortedChanges).

Definition valueChanges (options : ValueChangesOptions) : Observable (list JsObject) :=
  keepUnstableUntilFirst afs
    (rx_map
       (fun actions =>
          map
            (fun a =>
               if truthy (idField options)
               then spread (spread ∅ (data a))
                           {[ default ""%string (idField options) := FString (id a) ]}
               else data a)
            (docs (action_payload actions)))
       (fromCollectionRef query (outsideAngular (schedulers afs)))).

Definition get (options : option GetOptions)
  : State (list (Scheduler * Notification QuerySnapshot)) :=
  promise ← Query_get query options;
  mret (observeOn (insideAngular (schedulers afs)) (from promise)).

End AngularFirestoreCollectionGroup.

(** A consumer that calls [snapshotChanges] and subscribes to what it
    returns; a throw leaves before the subscription. *)
Definition subscribeToSnapshotChanges (query : Query) (afs : AngularFirestore)
    (events : option (list string)) : State (Result (list Projection)) :=
  match snapshotChanges query afs events with
  | Throw e => mret (Throw e)
  | Ok o => emitted ← subscribe o; mret (Ok emitted)
  end.

(** ** Vocabulary of the statements *)

(** The running results of a [scan], as a function of the values scanned. *)
Fixpoint running {A B} (f : B -> A -> B) (seed : B) (vs : list A) : list B :=
  match vs with
  | [] => []
  | v :: vs' => f seed v :: running f (f seed v) vs'
  end.

(** The latest of the values buffered so far. *)
Definition latest {A} (s : option A) (vs : list A) : option A :=
  match last vs with
  | Some a => Some a
  | None => s
  end.

(** What it means for [out] to be [inner] behind a stabilization gate with
    [n] markers outstanding at subscription: while fewer than [n] markers
    have been cleared only the clearances get through; the clearance that
    removes the last marker is followed by the latest value buffered until
    then, if any, and by everything that comes after it, unchanged; with no
    marker outstanding the gate is transparent. *)
Definition gated {A} (n : nat) (inner out : Observable A) : Prop :=
  ((clearances inner < n)%nat -> out = repeat MarkerCleared (clearances inner))
  /\ (forall pre post,
        inner = pre ++ MarkerCleared :: post ->
        S (clearances pre) = n ->
        out = repeat MarkerCleared n
                ++ option_list (Next <$> last (emissions pre)) ++ post)
  /\ (n = 0%nat -> out = inner).

(** What each view pipes into [keepUnstableUntilFirst]. *)
Definition stateChanges_upstream (query : Query) (afs : AngularFirestore)
    (events : option (list string)) : Observable (list DocumentChangeAction) :=
  match events with
  | None | Some [] => docChanges query (outsideAngular (schedulers afs))
  | Some (e :: es) =>
      rx_filter (fun changes => (0 <? length changes)%nat)
        (rx_map (List.filter (requested (e :: es)))
           (docChanges query (outsideAngular (schedulers afs))))
  end.

Definition valueChanges_upstream (query : Query) (afs : AngularFirestore)
    (options : ValueChangesOptions) : Observable (list (gmap string FieldValue)) :=
  rx_map
    (fun actions =>
       map
         (fun a =>
            match idField options with
            | Some k =>
                if String.eqb k "" then data a else <[k := FString (id a)]> (data a)
            | None => data a
            end)
         (docs (action_payload actions)))
    (fromCollectionRef query (outsideAngular (schedulers afs))).




#[global] Instance DocumentChangeType_eq_dec : EqDecision DocumentChangeType.
Proof. solve_decision. Defined.




(** ** Sample inputs *)

Definition D1 : DocumentSnapshot :=
  {| id := "d1"; data := {[ "price"%string := FNumber 3 ]} |}.
Definition D2 : DocumentSnapshot :=
  {| id := "d2"; data := {[ "price"%string := FNumber 5 ]} |}.

Definition change (t : DocumentChangeType) (d : DocumentSnapshot) (old new : Z)
  : DocumentChange :=
  {| dc_type := t; doc := d; oldIndex := old; newIndex := new |}.

Definition action (t : DocumentChangeType) (d : DocumentSnapshot) (old new : Z)
  : DocumentChangeAction :=
  {| type := t; payload := change t d old new |}.

Definition plainSchedulers : Schedulers :=
  {| outsideAngular := ZoneOutside; insideAngular := ZoneInside |}.

(** A host with [n] unstable markers outstanding. *)
Definition host (n : nat) : AngularFirestore :=
  {| schedulers := plainSchedulers; unstable := n |}.

(** A query whose listener delivers the given deltas. *)
Definition listening (o : Observable QuerySnapshot) : Query :=
  {| onSnapshot := o; query_get := fun _ => Rejected "unavailable" |}.

(** An empty initial result set: no documents, no changes. *)
Definition emptySnapshot : QuerySnapshot := {| docs := []; docChanges_of := [] |}.

Definition twoAdded : QuerySnapshot :=
  {| docs := [D1; D2];
     docChanges_of := [change added D1 (-1) 0; change added D2 (-1) 1] |}.

Definition mixedDelta : QuerySnapshot :=
  {| docs := [D1];
     docChanges_of := [change added D1 (-1) 0; change removed D2 0 (-1)] |}.

(** ** Consumers used in further statements *)

(** A consumer that calls [get] once per element of [optionss], in order,
    and collects what each call delivers. *)
Fixpoint getEach (query : Query) (afs : AngularFirestore)
    (optionss : list (option GetOptions))
  : State (list (list (Scheduler * Notification QuerySnapshot))) :=
  match optionss with
  | [] => mret []
  | options :: rest =>
      delivered ← get query afs options;
      others ← getEach query afs rest;
      mret (delivered :: others)
  end.

(** * Properties *)

(** ** Timelines and operators *)

Lemma emissions_app {A} (o1 o2 : Observable A) :
  emissions (o1 ++ o2) = emissions o1 ++ emissions o2.
Proof.
  induction o1 as [|[a|] o1 IH]; simpl; [reflexivity | f_equal; exact IH | exact IH].
Qed.

Lemma emissions_repeat_cleared {A} (n : nat) :
  emissions (repeat (@MarkerCleared A) n) = [].
Proof. induction n; simpl; auto. Qed.

Lemma emissions_rx_map {A B} (f : A -> B) (o : Observable A) :
  emissions (rx_map f o) = map f (emissions o).
Proof.
  induction o as [|[a|] o IH]; simpl; [reflexivity | f_equal; exact IH | exact IH].
Qed.

Lemma emissions_rx_filter {A} (p : A -> bool) (o : Observable A) :
  emissions (rx_filter p o) = List.filter p (emissions o).
Proof.
  induction o as [|[a|] o IH]; simpl; [reflexivity | | exact IH].
  destruct (p a); simpl; [f_equal |]; exact IH.
Qed.

Lemma emissions_rx_scan {A B} (f : B -> A -> B) (seed : B) (o : Observable A) :
  emissions (rx_scan f seed o) = running f seed (emissions o).
Proof.
  revert seed. induction o as [|[a|] o IH]; intros seed; simpl;
    [reflexivity | f_equal; apply IH | apply IH].
Qed.

(** ** [indexOf] *)

Lemma indexOf_from_found (xs : list string) (x : string) (i : Z) :
  0 <= i -> (indexOf_from xs x i >? -1) = true <-> In x xs.
Proof.
  revert i. induction xs as [|y ys IH]; intros i Hi; simpl.
  - split; [discriminate | tauto].
  - destruct (String.eqb_spec y x) as [-> | Hne].
    + split; [now left | intros _; apply Z.gtb_lt; lia].
    + rewrite IH by lia. split; [now right | intros [H | H]; [congruence | exact H]].
Qed.

Lemma indexOf_found (xs : list string) (x : string) :
  (indexOf xs x >? -1) = true <-> In x xs.
Proof. apply indexOf_from_found. lia. Qed.

Lemma requested_In (events : list string) (change : DocumentChangeAction) :
  requested events change = true <-> In (typeName (type change)) events.
Proof. apply indexOf_found. Qed.

Lemma forallb_recognized_false (events : list string) (kind : string) :
  In kind events -> recognized kind = false -> forallb recognized events = false.
Proof.
  induction events as [|e es IH]; simpl; [tauto |].
  intros [-> | H] Hk; [rewrite Hk; reflexivity |].
  rewrite (IH H Hk). apply andb_false_r.
Qed.

Lemma typeName_recognized (t : DocumentChangeType) : recognized (typeName t) = true.
Proof. destruct t; reflexivity. Qed.

(** ** The stabilization gate *)

(** Once open, or with nothing outstanding and nothing buffered, the gate
    forwards its input as it is. *)
Lemma gate_run_open {A} (g : Gate A) (o : Observable A) :
  opened g = true \/ (pending g = 0%nat /\ slot g = None) ->
  gate_run g o = o.
Proof.
  revert g. induction o as [|t o IH]; intros g Hg; simpl; [reflexivity |].
  unfold gate_step. destruct (opened g) eqn:Ho.
  - simpl. f_equal. apply IH. now left.
  - destruct Hg as [Hg | [Hp Hs]]; [discriminate |].
    rewrite Hp, Hs. destruct t as [a|]; simpl; f_equal; apply IH; simpl; auto.
Qed.

(** While a marker is outstanding the gate lets only the clearances through. *)
Lemma gate_run_held {A} (o : Observable A) (n : nat) (s : option A) :
  (clearances o < n)%nat ->
  gate_run {| pending := n; slot := s; opened := false |} o
  = repeat MarkerCleared (clearances o).
Proof.
  revert n s. induction o as [|[a|] o IH]; intros n s Hn; simpl in *; [reflexivity | |].
  - unfold gate_step; simpl. destruct n as [|n]; [lia |]. simpl. apply IH. exact Hn.
  - unfold gate_step; simpl. destruct n as [|[|n]]; [lia | lia |].
    simpl. destruct s; simpl; f_equal; apply IH; lia.
Qed.

Lemma latest_cons {A} (s : option A) (a : A) (vs : list A) :
  latest s (a :: vs) = latest (Some a) vs.
Proof.
  unfold latest. destruct vs as [|v vs]; [reflexivity |].
  rewrite last_cons. destruct (last (v :: vs)) eqn:E; [reflexivity |].
  apply last_None in E. discriminate.
Qed.

(** At the clearance that removes the last outstanding marker the gate
    releases the latest buffered value and then forwards the rest. *)
Lemma latest_None {A} (vs : list A) : latest None vs = last vs.
Proof. unfold latest. destruct (last vs); reflexivity. Qed.

Lemma gate_run_release {A} (pre post : Observable A) (s : option A) :
  gate_run {| pending := S (clearances pre); slot := s; opened := false |}
           (pre ++ MarkerCleared :: post)
  = repeat MarkerCleared (S (clearances pre))
      ++ option_list (Next <$> latest s (emissions pre)) ++ post.
Proof.
  revert s. induction pre as [|[a|] pre IH]; intros s; simpl.
  - unfold gate_step; simpl. destruct s as [a|]; simpl; f_equal.
    + f_equal. apply gate_run_open. now left.
    + apply gate_run_open. right. auto.
  - unfold gate_step; simpl. rewrite IH, latest_cons. reflexivity.
  - unfold gate_step; simpl. destruct s; simpl; f_equal; apply IH.
Qed.

(** What the gate delivers is among what it received or had buffered. *)
Lemma gate_run_emits {A} (o : Observable A) (g : Gate A) (a : A) :
  In a (emissions (gate_run g o)) -> In a (emissions o) \/ slot g = Some a.
Proof.
  revert g. induction o as [|t o IH]; intros g; simpl; [tauto |].
  destruct (gate_step g t) as [g' out] eqn:E. rewrite emissions_app, in_app_iff.
  unfold gate_step in E. destruct (opened g).
  - inversion E; subst. destruct t as [b|]; simpl.
    + intros [[H | []] | H]; [auto | apply IH in H]. tauto.
    + intros [[] | H]; apply IH in H. tauto.
  - destruct t as [b|].
    + destruct (pending g); inversion E; subst; simpl.
      * intros [[H | []] | H]; [auto | apply IH in H; simpl in H]. 
        destruct H as [H | H]; [auto | discriminate].
      * intros [[] | H]. apply IH in H; simpl in H.
        destruct H as [H | H]; [auto | left; left; congruence].
    + destruct (Nat.pred (pending g)), (slot g) as [b|]; inversion E; subst; simpl.
      * intros [[H | []] | H]; [right; congruence | apply IH in H; simpl in H].
        destruct H as [H | H]; [auto | discriminate].
      * intros [[] | H]. apply IH in H; simpl in H. exact H.
      * intros [[] | H]. apply IH in H; simpl in H. exact H.
      * intros [[] | H]. apply IH in H; simpl in H. exact H.
Qed.

Lemma keepUnstableUntilFirst_emits (afs : AngularFirestore) {A} (o : Observable A) (a : A) :
  In a (emissions (keepUnstableUntilFirst afs o)) -> In a (emissions o).
Proof.
  intros H. apply gate_run_emits in H. destruct H as [H | H]; [exact H | discriminate].
Qed.

(** ** [stateChanges] and [auditTrail] *)

Lemma rx_map_id {A} (f : A -> A) (o : Observable A) :
  (forall a, In a (emissions o) -> f a = a) -> rx_map f o = o.
Proof.
  induction o as [|[a|] o IH]; intros H; simpl in *; [reflexivity | |].
  - rewrite H by auto. f_equal. apply IH. auto.
  - f_equal. apply IH. exact H.
Qed.

Lemma rx_filter_all {A} (p : A -> bool) (o : Observable A) :
  (forall a, In a (emissions o) -> p a = true) -> rx_filter p o = o.
Proof.
  induction o as [|[a|] o IH]; intros H; simpl in *; [reflexivity | |].
  - rewrite H by auto. f_equal. apply IH. auto.
  - f_equal. apply IH. exact H.
Qed.

Lemma filter_all {A} (p : A -> bool) (l : list A) :
  (forall a, In a l -> p a = true) -> List.filter p l = l.
Proof.
  induction l as [|a l IH]; intros H; simpl in *; [reflexivity |].
  rewrite H by auto. f_equal. apply IH. auto.
Qed.

(** Every batch [stateChanges] emits for a non-empty [events] is a decoded
    batch cut down to the requested kinds, and is not empty. *)
Lemma stateChanges_emitted (query : Query) (afs : AngularFirestore)
    (e : string) (es : list string) (batch : list DocumentChangeAction) :
  In batch (emissions (stateChanges query afs (Some (e :: es)))) ->
  batch <> []
  /\ exists decoded,
       In decoded (emissions (docChanges query (outsideAngular (schedulers afs))))
       /\ batch = List.filter (requested (e :: es)) decoded.
Proof.
  unfold stateChanges. intros H. apply keepUnstableUntilFirst_emits in H.
  rewrite emissions_rx_filter, emissions_rx_map in H.
  apply filter_In in H. destruct H as [H Hlen].
  apply in_map_iff in H. destruct H as [decoded [Hb Hd]].
  split.
  - intros ->. discriminate.
  - exists decoded. split; [exact Hd | symmetry; exact Hb].
Qed.

(** C3: for a non-empty set of requested kinds, every batch that
    [stateChanges] emits holds only changes of a requested kind and is never
    of length zero: it is a decoded batch of the listener with the other
    changes filtered out, and dropped if nothing is left. *)
Theorem stateChanges_only_requested (query : Query) (afs : AngularFirestore)
    (events : list string) (batch : list DocumentChangeAction) :
  events <> [] ->
  In batch (emissions (stateChanges query afs (Some events))) ->
  batch <> []
  /\ (forall change, In change batch -> In (typeName (type change)) events)
  /\ exists decoded,
       In decoded (emissions (docChanges query (outsideAngular (schedulers afs))))
       /\ batch = List.filter (requested events) decoded.
Proof.
  destruct events as [|e es]; [congruence | intros _ H].
  apply stateChanges_emitted in H. destruct H as [Hne [decoded [Hd Hb]]].
  split; [exact Hne | split].
  - intros c Hc. rewrite Hb in Hc. apply filter_In in Hc.
    apply requested_In. tauto.
  - exists decoded. auto.
Qed.

Lemma stateChanges_only_requested_witness :
  [action added D1 (-1) 0] <> []
  /\ (forall change, In change [action added D1 (-1) 0] ->
        In (typeName (type change)) ["added"%string])
  /\ exists decoded,
       In decoded (emissions (docChanges (listening [Next mixedDelta; Next emptySnapshot])
                                         (outsideAngular (schedulers (host 0)))))
       /\ [action added D1 (-1) 0]
          = List.filter (requested ["added"%string]) decoded.
Proof.
  apply (stateChanges_only_requested
           (listening [Next mixedDelta; Next emptySnapshot]) (host 0) ["added"%string]).
  - discriminate.
  - simpl. left. reflexivity.
Defined.

(** C4 as amended: when no decoded batch of the listener is empty,
    [stateChanges] with [events] omitted or empty is the same observable as
    [stateChanges] with all three kinds requested, in any order. *)
Theorem stateChanges_default_is_full (query : Query) (afs : AngularFirestore)
    (events : list string) :
  (forall t, In (typeName t) events) ->
  (forall batch,
     In batch (emissions (docChanges query (outsideAngular (schedulers afs)))) ->
     batch <> []) ->
  stateChanges query afs None = stateChanges query afs (Some events)
  /\ stateChanges query afs (Some []) = stateChanges query afs (Some events).
Proof.
  intros Hall Hbatches.
  destruct events as [|e es]; [destruct (Hall added) |].
  assert (Hmap :
    rx_map (fun actions =>
              List.filter
                (fun change => indexOf (e :: es) (typeName (type change)) >? -1) actions)
           (docChanges query (outsideAngular (schedulers afs)))
    = docChanges query (outsideAngular (schedulers afs))).
  { apply rx_map_id. intros batch _. apply filter_all.
    intros c _. apply indexOf_found, Hall. }
  unfold stateChanges. rewrite Hmap.
  rewrite rx_filter_all; [split; reflexivity |].
  intros batch Hb. apply Hbatches in Hb.
  destruct batch; [congruence | reflexivity].
Qed.

Lemma stateChanges_default_is_full_witness :
  stateChanges (listening [Next twoAdded; MarkerCleared]) (host 1) None
  = stateChanges (listening [Next twoAdded; MarkerCleared]) (host 1)
      (Some ["added"; "modified"; "removed"]%string)
  /\ stateChanges (listening [Next twoAdded; MarkerCleared]) (host 1) (Some [])
     = stateChanges (listening [Next twoAdded; MarkerCleared]) (host 1)
         (Some ["added"; "modified"; "removed"]%string).
Proof.
  apply (stateChanges_default_is_full
           (listening [Next twoAdded; MarkerCleared]) (host 1)
           ["added"; "modified"; "removed"]%string).
  - intros t. destruct t; simpl; auto.
  - simpl. intros batch [<- | []]. discriminate.
Defined.

(** C4 as stated fails: on an empty initial result set the listener's first
    batch is empty; without [events] it is emitted, with all three kinds
    requested it is dropped. *)
Lemma stateChanges_default_differs_from_full :
  emissions (stateChanges (listening [Next emptySnapshot]) (host 0) None) = [[]]
  /\ emissions (stateChanges (listening [Next emptySnapshot]) (host 0)
                  (Some ["added"; "modified"; "removed"]%string)) = [].
Proof. split; reflexivity. Qed.

Lemma no_elements {A} (l : list A) : (forall a, ~ In a l) -> l = [].
Proof. destruct l as [|a l]; [reflexivity | intros H; destruct (H a); now left]. Qed.

(** C10 as amended: [stateChanges] (and with it [auditTrail]) validates
    nothing: called with a non-empty [events] none of whose kinds is
    recognized it returns an observable in which every change is filtered
    out, so that nothing is ever emitted, where [snapshotChanges] rejects
    every argument that holds an unrecognized kind. *)
Theorem stateChanges_unrecognized_never_emits (query : Query) (afs : AngularFirestore)
    (events : list string) :
  events <> [] ->
  ((forall kind, In kind events -> recognized kind = false) ->
   emissions (stateChanges query afs (Some events)) = []
   /\ emissions (auditTrail query afs (Some events)) = [])
  /\ ((exists kind, In kind events /\ recognized kind = false) ->
      snapshotChanges query afs (Some events) = Throw ValidationError).
Proof.
  intros Hne. destruct events as [|e es]; [congruence |]. split.
  - intros Hun.
    assert (Hs : emissions (stateChanges query afs (Some (e :: es))) = []).
    { apply no_elements. intros batch H.
      apply stateChanges_emitted in H. destruct H as [Hb [decoded [_ ->]]].
      apply Hb. clear Hb.
      induction decoded as [|c cs IH]; simpl; [reflexivity |].
      destruct (requested (e :: es) c) eqn:Hc; [| exact IH].
      apply requested_In, Hun in Hc. rewrite typeName_recognized in Hc. discriminate. }
    split; [exact Hs |].
    unfold auditTrail. rewrite emissions_rx_scan, Hs. reflexivity.
  - intros [kind [Hin Hk]]. unfold snapshotChanges, validateEventsArray.
    rewrite (forallb_recognized_false (e :: es) kind Hin Hk). reflexivity.
Qed.

Lemma stateChanges_unrecognized_never_emits_witness :
  (emissions (stateChanges (listening [Next twoAdded]) (host 0)
                (Some ["bogus-kind"%string])) = []
   /\ emissions (auditTrail (listening [Next twoAdded]) (host 0)
                   (Some ["bogus-kind"%string])) = [])
  /\ snapshotChanges (listening [Next twoAdded]) (host 0)
       (Some ["bogus-kind"%string]) = Throw ValidationError.
Proof.
  split.
  - apply (stateChanges_unrecognized_never_emits
             (listening [Next twoAdded]) (host 0) ["bogus-kind"%string]).
    + discriminate.
    + intros kind [<- | []]. reflexivity.
  - apply (stateChanges_unrecognized_never_emits
             (listening [Next twoAdded]) (host 0) ["bogus-kind"%string]).
    + discriminate.
    + exists "bogus-kind"%string. split; [left |]; reflexivity.
Defined.

(** C10 as stated fails: [events] holding a recognized kind beside an
    unrecognized one is an argument [snapshotChanges] rejects, and yet
    [stateChanges] emits the changes of the recognized kind. *)
Lemma stateChanges_mixed_kinds_emits :
  recognized "bogus-kind" = false
  /\ emissions (stateChanges (listening [Next twoAdded]) (host 0)
                  (Some ["added"; "bogus-kind"]%string))
     = [[action added D1 (-1) 0; action added D2 (-1) 1]]
  /\ emissions (auditTrail (listening [Next twoAdded]) (host 0)
                  (Some ["added"; "bogus-kind"]%string))
     = [[action added D1 (-1) 0; action added D2 (-1) 1]]
  /\ snapshotChanges (listening [Next twoAdded]) (host 0)
       (Some ["added"; "bogus-kind"]%string) = Throw ValidationError.
Proof. repeat split. Qed.

Lemma running_app_lookup {A} (acc : list A) (bs : list (list A)) (N : nat) :
  (N < length bs)%nat ->
  running (fun current action => current ++ action) acc bs !! N
  = Some (acc ++ concat (take (S N) bs)).
Proof.
  revert acc N. induction bs as [|b bs IH]; intros acc N HN; simpl in *; [lia |].
  destruct N as [|N]; simpl.
  - rewrite app_nil_r. reflexivity.
  - rewrite IH by lia. rewrite <- app_assoc. reflexivity.
Qed.

Lemma running_length {A B} (f : B -> A -> B) (seed : B) (vs : list A) :
  length (running f seed vs) = length vs.
Proof. revert seed. induction vs as [|v vs IH]; intros seed; simpl; auto. Qed.

(** C5: on one subscription, with B1..Bn the batches [stateChanges] has
    emitted, the N-th emission of [auditTrail] is B1 ++ ... ++ BN (the whole
    accumulated sequence), and each emission is the one before it extended by
    the batch that arrived. *)
Theorem auditTrail_accumulates (query : Query) (afs : AngularFirestore)
    (events : option (list string)) :
  let batches := emissions (stateChanges query afs events) in
  let trail := emissions (auditTrail query afs events) in
  length trail = length batches
  /\ (forall N, (N < length batches)%nat ->
        trail !! N = Some (concat (take (S N) batches)))
  /\ (forall N e e', trail !! N = Some e -> trail !! S N = Some e' ->
        exists b, batches !! S N = Some b /\ e' = e ++ b).
Proof.
  intros batches trail.
  assert (Ht : trail = running (fun current action => current ++ action) [] batches).
  { unfold trail, auditTrail. apply emissions_rx_scan. }
  assert (Hlen : length trail = length batches).
  { rewrite Ht. apply running_length. }
  assert (Hnth : forall N, (N < length batches)%nat ->
                   trail !! N = Some (concat (take (S N) batches))).
  { intros N HN. rewrite Ht, running_app_lookup by exact HN. reflexivity. }
  split; [exact Hlen | split; [exact Hnth |]].
  intros N e e' He He'.
  assert (HSN : (S N < length batches)%nat).
  { rewrite <- Hlen. apply lookup_lt_Some in He'. exact He'. }
  rewrite Hnth in He by lia. rewrite Hnth in He' by lia.
  destruct (lookup_lt_is_Some_2 batches (S N) HSN) as [b Hb].
  exists b. split; [exact Hb |].
  inversion He; inversion He'; subst.
  rewrite (take_S_r batches (S N) b Hb), concat_app. simpl.
  rewrite app_nil_r. reflexivity.
Qed.

(** ** The sorted projection *)



















(** ** Counting, replay and round trip *)









(** *** The latest projection of a subscription *)















(** ** Validation in [snapshotChanges] *)

(** C2: an [events] argument holding a value outside added, modified and
    removed makes [snapshotChanges] fail with a validation error at the
    call, so that a consumer never gets to subscribe to the listener; with
    [events] absent or empty the call succeeds. *)
Theorem snapshotChanges_validates (query : Query) (afs : AngularFirestore) :
  (forall events kind w,
     In kind events -> recognized kind = false ->
     snapshotChanges query afs (Some events) = Throw ValidationError
     /\ subscribeToSnapshotChanges query afs (Some events) w = (Throw ValidationError, w))
  /\ snapshotChanges query afs (Some ["bogus-kind"%string]) = Throw ValidationError
  /\ (exists o, snapshotChanges query afs None = Ok o)
  /\ (exists o, snapshotChanges query afs (Some []) = Ok o)
  /\ (forall w,
        subscriptions (snd (subscribeToSnapshotChanges query afs None w))
        = {| projection := []; auditLog := [] |} :: subscriptions w).
Proof.
  split; [| split; [reflexivity | split; [| split]]].
  - intros events kind w Hin Hk.
    assert (H : snapshotChanges query afs (Some events) = Throw ValidationError).
    { unfold snapshotChanges, validateEventsArray.
      destruct events as [|e es]; [destruct Hin |].
      rewrite (forallb_recognized_false (e :: es) kind Hin Hk). reflexivity. }
    split; [exact H |]. unfold subscribeToSnapshotChanges. rewrite H. reflexivity.
  - eexists. reflexivity.
  - eexists. reflexivity.
  - intros w. reflexivity.
Qed.

(** ** [valueChanges] *)

Lemma spread_idField (m : gmap string FieldValue) (k : string) (v : FieldValue) :
  spread (spread ∅ m) {[ k := v ]} = <[k := v]> m.
Proof.
  unfold spread. rewrite (right_id ∅ (∪) m). symmetry. apply insert_union_singleton_l.
Qed.

Lemma valueChanges_unfold (query : Query) (afs : AngularFirestore)
    (options : ValueChangesOptions) :
  valueChanges query afs options
  = keepUnstableUntilFirst afs (valueChanges_upstream query afs options).
Proof.
  unfold valueChanges, valueChanges_upstream. f_equal.
  generalize (fromCollectionRef query (outsideAngular (schedulers afs))).
  intros o. induction o as [|[actions|] o IH]; simpl; [reflexivity | | f_equal; exact IH].
  f_equal; [| exact IH]. f_equal. apply map_ext. intros a.
  destruct (idField options) as [k|]; simpl; [| reflexivity].
  destruct (String.eqb k ""); simpl; [reflexivity | apply spread_idField].
Qed.

(** C7 as amended: with a non-empty [idField] every emitted payload is the
    document's data with the field [idField] set to the document's id,
    overwriting a field of that name and leaving the others as they are;
    with [idField] not given, or the empty string, the payload is the
    document's data unmodified. *)
Theorem valueChanges_payloads (query : Query) (afs : AngularFirestore)
    (options : ValueChangesOptions) (payloads : list (gmap string FieldValue)) :
  In payloads (emissions (valueChanges query afs options)) ->
  exists snap,
    In snap (emissions (onSnapshot query))
    /\ match idField options with
       | Some k =>
           if String.eqb k ""
           then payloads = map data (docs snap)
           else payloads = map (fun a => <[k := FString (id a)]> (data a)) (docs snap)
                /\ forall a, (<[k := FString (id a)]> (data a)) !! k = Some (FString (id a))
                             /\ forall k', k' <> k ->
                                  (<[k := FString (id a)]> (data a)) !! k' = data a !! k'
       | None => payloads = map data (docs snap)
       end.
Proof.
  rewrite valueChanges_unfold. intros H. apply keepUnstableUntilFirst_emits in H.
  unfold valueChanges_upstream, fromCollectionRef in H.
  rewrite !emissions_rx_map in H.
  apply in_map_iff in H. destruct H as [actions [<- H]].
  apply in_map_iff in H. destruct H as [snap [<- H]].
  exists snap. split; [exact H |]. simpl.
  destruct (idField options) as [k|]; [| reflexivity].
  destruct (String.eqb k ""); [reflexivity |].
  split; [reflexivity |]. intros a. split.
  - apply lookup_insert_eq.
  - intros k' Hk'. apply lookup_insert_ne. congruence.
Qed.

Lemma valueChanges_payloads_witness :
  exists snap,
    In snap (emissions (onSnapshot (listening [Next twoAdded])))
    /\ [ <["price"%string := FString "d1"]> (data D1);
         <["price"%string := FString "d2"]> (data D2) ]
       = map (fun a => <["price"%string := FString (id a)]> (data a)) (docs snap)
    /\ forall a,
         (<["price"%string := FString (id a)]> (data a)) !! "price"%string
         = Some (FString (id a))
         /\ forall k', k' <> "price"%string ->
              (<["price"%string := FString (id a)]> (data a)) !! k' = data a !! k'.
Proof.
  apply (valueChanges_payloads (listening [Next twoAdded]) (host 0)
           {| idField := Some "price"%string |}).
  rewrite valueChanges_unfold. simpl. left. reflexivity.
Defined.

(** C7 as stated fails: given the empty string as [idField], the payloads
    are the documents' data, with no field of that name holding the id. *)
Lemma valueChanges_empty_idField :
  emissions (valueChanges (listening [Next twoAdded]) (host 0)
               {| idField := Some ""%string |})
  = [[data D1; data D2]]
  /\ data D1 !! ""%string = None
  /\ (<[""%string := FString (id D1)]> (data D1)) !! ""%string = Some (FString "d1").
Proof.
  split; [reflexivity | split].
  - reflexivity.
  - apply lookup_insert_eq.
Qed.

(** ** The stabilization gate in the four views *)

Lemma keepUnstableUntilFirst_gated (afs : AngularFirestore) {A} (inner : Observable A) :
  gated (unstable afs) inner (keepUnstableUntilFirst afs inner).
Proof.
  unfold gated, keepUnstableUntilFirst, gate_init. split; [| split].
  - intros H. apply gate_run_held. exact H.
  - intros pre post -> <-. rewrite gate_run_release, latest_None. reflexivity.
  - intros ->. apply gate_run_open. right. auto.
Qed.

Lemma rx_scan_cleared {A B} (f : B -> A -> B) (seed : B) (n : nat) (o : Observable A) :
  rx_scan f seed (repeat MarkerCleared n ++ o) = repeat MarkerCleared n ++ rx_scan f seed o.
Proof. induction n as [|n IH]; simpl; [reflexivity | f_equal; exact IH]. Qed.

Lemma stateChanges_unfold (query : Query) (afs : AngularFirestore)
    (events : option (list string)) :
  stateChanges query afs events
  = keepUnstableUntilFirst afs (stateChanges_upstream query afs events).
Proof. destruct events as [[|e es]|]; reflexivity. Qed.

(** C8: each of the four views is its upstream behind the gate: on a fresh
    subscription nothing is delivered while an unstable marker is
    outstanding; the clearance of the last marker releases exactly one
    buffered emission, the latest, and every later emission passes through
    as it is. *)
Theorem views_are_gated (query : Query) (afs : AngularFirestore)
    (events : option (list string)) (options : ValueChangesOptions) :
  (forall A (inner : Observable A),
     gated (unstable afs) inner (keepUnstableUntilFirst afs inner))
  /\ gated (unstable afs) (stateChanges_upstream query afs events)
           (stateChanges query afs events)
  /\ (auditTrail query afs events
      = rx_scan (fun current action => current ++ action) []
          (stateChanges query afs events)
      /\ ((clearances (stateChanges_upstream query afs events) < unstable afs)%nat ->
          emissions (auditTrail query afs events) = [])
      /\ (forall pre post,
            stateChanges_upstream query afs events = pre ++ MarkerCleared :: post ->
            S (clearances pre) = unstable afs ->
            auditTrail query afs events
            = repeat MarkerCleared (unstable afs)
                ++ rx_scan (fun current action => current ++ action) []
                     (option_list (Next <$> last (emissions pre)) ++ post)))
  /\ (forall validated o,
        validateEventsArray events = Ok validated ->
        snapshotChanges query afs events = Ok o ->
        gated (unstable afs)
              (sortedChanges query validated (outsideAngular (schedulers afs))) o)
  /\ gated (unstable afs) (valueChanges_upstream query afs options)
           (valueChanges query afs options).
Proof.
  split; [intros A inner; apply keepUnstableUntilFirst_gated |].
  split; [rewrite stateChanges_unfold; apply keepUnstableUntilFirst_gated |].
  split; [split; [reflexivity | split] |].
  - intros H. unfold auditTrail. rewrite emissions_rx_scan, stateChanges_unfold.
    unfold keepUnstableUntilFirst, gate_init. rewrite gate_run_held by exact H.
    rewrite emissions_repeat_cleared. reflexivity.
  - intros pre post Hup Hn. unfold auditTrail.
    rewrite stateChanges_unfold, Hup.
    unfold keepUnstableUntilFirst, gate_init. rewrite <- Hn.
    rewrite gate_run_release, latest_None. apply rx_scan_cleared.
  - split; [| rewrite valueChanges_unfold; apply keepUnstableUntilFirst_gated].
    intros validated o Hv. unfold snapshotChanges. rewrite Hv. simpl.
    intros [= <-]. apply keepUnstableUntilFirst_gated.
Qed.

(** ** [get] *)

(** C9: [get] issues exactly one fetch to the query and hands what it
    settles to, value or failure, to the consumer on the foreground
    scheduler; the subscriptions and what they have accumulated are left as
    they were, and what [get] delivers depends neither on them nor on the
    listener's deltas. *)
Theorem get_is_one_shot (query : Query) (afs : AngularFirestore)
    (options : option GetOptions) (w : World) :
  fetchLog (snd (get query afs options w)) = options :: fetchLog w
  /\ subscriptions (snd (get query afs options w)) = subscriptions w
  /\ fst (get query afs options w)
     = match query_get query options with
       | Resolved snap =>
           [(insideAngular (schedulers afs), OnNext snap);
            (insideAngular (schedulers afs), OnComplete)]
       | Rejected reason => [(insideAngular (schedulers afs), OnError reason)]
       end
  /\ (forall d, In d (fst (get query afs options w)) ->
        fst d = insideAngular (schedulers afs))
  /\ (forall w', fst (get query afs options w') = fst (get query afs options w))
  /\ (forall deltas,
        fst (get {| onSnapshot := deltas; query_get := query_get query |} afs options w)
        = fst (get query afs options w)).
Proof.
  split; [reflexivity | split; [reflexivity | split]].
  - unfold get, Query_get. simpl. destruct (query_get query options); reflexivity.
  - split; [| split; reflexivity].
    intros d. unfold get, Query_get. simpl.
    destruct (query_get query options); simpl; intuition (subst; reflexivity).
Qed.

(** ** The scenarios of the specification, evaluated *)

Example removed_scenario :
  combineChanges [action added D1 (-1) 0; action added D2 (-1) 1]
                 [action removed D1 0 (-1)]
  = Ok [action added D2 (-1) 1].
Proof. reflexivity. Qed.

Example modified_in_place_scenario (D1' : DocumentSnapshot) :
  combineChanges [action added D1 (-1) 0] [action modified D1' 0 0]
  = Ok [action modified D1' 0 0].
Proof. reflexivity. Qed.

Example out_of_bounds_scenario :
  combineChanges [] [action removed D1 0 (-1)] = Throw OrderingViolation.
Proof. reflexivity. Qed.

Example gate_buffers_latest :
  gate_run (gate_init 2)
    [Next 1%nat; MarkerCleared; Next 2%nat; Next 3%nat; MarkerCleared; Next 4%nat]
  = [MarkerCleared; MarkerCleared; Next 3%nat; Next 4%nat].
Proof. reflexivity. Qed.

Example gate_transparent_when_stable :
  gate_run (gate_init 0) [Next 1%nat; MarkerCleared; Next 2%nat]
  = [Next 1%nat; MarkerCleared; Next 2%nat].
Proof. reflexivity. Qed.

Example auditTrail_scenario :
  emissions (auditTrail (listening [Next twoAdded; Next mixedDelta]) (host 0) None)
  = [ [action added D1 (-1) 0; action added D2 (-1) 1];
      [action added D1 (-1) 0; action added D2 (-1) 1;
       action added D1 (-1) 0; action removed D2 0 (-1)] ].
Proof. reflexivity. Qed.

(** * Further properties of the facade *)

(** ** [stateChanges]: what [events] is read for *)

Lemma requested_agree (events1 events2 : list string) (c : DocumentChangeAction) :
  (forall t, In (typeName t) events1 <-> In (typeName t) events2) ->
  requested events1 c = requested events2 c.
Proof.
  intros H. destruct (requested events2 c) eqn:E2.
  - apply requested_In, H, requested_In. exact E2.
  - destruct (requested events1 c) eqn:E1; [| reflexivity].
    apply requested_In, H, requested_In in E1. congruence.
Qed.

Lemma rx_map_ext {A B} (f g : A -> B) (o : Observable A) :
  (forall a, f a = g a) -> rx_map f o = rx_map g o.
Proof.
  intros H. induction o as [|[a|] o IH]; simpl; [reflexivity | |]; rewrite ?H, IH; reflexivity.
Qed.

(** X1: a non-empty [events] matters to [stateChanges] and [auditTrail] only
    through which of added, removed and modified it holds: order, repeats
    and other strings make no difference to the observable returned. *)
Theorem stateChanges_events_as_set (query : Query) (afs : AngularFirestore)
    (events1 events2 : list string) :
  events1 <> [] -> events2 <> [] ->
  (forall t, In (typeName t) events1 <-> In (typeName t) events2) ->
  stateChanges query afs (Some events1) = stateChanges query afs (Some events2)
  /\ auditTrail query afs (Some events1) = auditTrail query afs (Some events2).
Proof.
  intros H1 H2 Hsame.
  assert (Hs : stateChanges query afs (Some events1)
               = stateChanges query afs (Some events2)).
  { destruct events1 as [|e1 es1]; [congruence |].
    destruct events2 as [|e2 es2]; [congruence |].
    unfold stateChanges. do 2 f_equal. apply rx_map_ext. intros actions.
    apply filter_ext. intros c. apply (requested_agree _ _ c Hsame). }
  split; [exact Hs |]. unfold auditTrail. rewrite Hs. reflexivity.
Qed.

Lemma stateChanges_events_as_set_witness :
  stateChanges (listening [Next mixedDelta; MarkerCleared; Next twoAdded]) (host 1)
    (Some ["removed"; "bogus-kind"; "added"; "added"]%string)
  = stateChanges (listening [Next mixedDelta; MarkerCleared; Next twoAdded]) (host 1)
      (Some ["added"; "removed"]%string)
  /\ auditTrail (listening [Next mixedDelta; MarkerCleared; Next twoAdded]) (host 1)
       (Some ["removed"; "bogus-kind"; "added"; "added"]%string)
     = auditTrail (listening [Next mixedDelta; MarkerCleared; Next twoAdded]) (host 1)
         (Some ["added"; "removed"]%string).
Proof.
  apply (stateChanges_events_as_set
           (listening [Next mixedDelta; MarkerCleared; Next twoAdded]) (host 1)
           ["removed"; "bogus-kind"; "added"; "added"]%string
           ["added"; "removed"]%string).
  - discriminate.
  - discriminate.
  - intros t. destruct t; simpl; split; intros H;
      repeat (destruct H as [H | H]; try discriminate H); auto.
Defined.

(** X2: with a non-empty [events], if the listener never reports a change
    of a requested kind then [stateChanges] and [auditTrail] never emit. *)
Theorem stateChanges_silent_without_requested (query : Query) (afs : AngularFirestore)
    (events : list string) :
  events <> [] ->
  (forall decoded c,
     In decoded (emissions (docChanges query (outsideAngular (schedulers afs)))) ->
     In c decoded -> ~ In (typeName (type c)) events) ->
  emissions (stateChanges query afs (Some events)) = []
  /\ emissions (auditTrail query afs (Some events)) = [].
Proof.
  intros Hne Hnone. destruct events as [|e es]; [congruence |].
  assert (Hs : emissions (stateChanges query afs (Some (e :: es))) = []).
  { apply no_elements. intros batch H.
    apply stateChanges_emitted in H. destruct H as [Hb [decoded [Hd ->]]].
    apply Hb. apply no_elements. intros c Hc.
    apply filter_In in Hc. destruct Hc as [Hc Hr].
    apply (Hnone decoded c Hd Hc). apply requested_In. exact Hr. }
  split; [exact Hs |]. unfold auditTrail. rewrite emissions_rx_scan, Hs. reflexivity.
Qed.

Lemma stateChanges_silent_without_requested_witness :
  emissions (stateChanges (listening [Next twoAdded; Next twoAdded]) (host 0)
               (Some ["removed"; "modified"]%string)) = []
  /\ emissions (auditTrail (listening [Next twoAdded; Next twoAdded]) (host 0)
                  (Some ["removed"; "modified"]%string)) = [].
Proof.
  apply (stateChanges_silent_without_requested
           (listening [Next twoAdded; Next twoAdded]) (host 0)
           ["removed"; "modified"]%string).
  - discriminate.
  - simpl. intros decoded c Hd Hc Hk.
    assert (Ht : type c = added).
    { destruct Hd as [<- | [<- | []]]; destruct Hc as [<- | [<- | []]]; reflexivity. }
    rewrite Ht in Hk. simpl in Hk.
    repeat (destruct Hk as [Hk | Hk]; try discriminate Hk). exact Hk.
Defined.

(** ** [auditTrail]: how the trail grows *)

Lemma auditTrail_emission (query : Query) (afs : AngularFirestore)
    (events : option (list string)) (N : nat) (e : list DocumentChangeAction) :
  emissions (auditTrail query afs events) !! N = Some e ->
  (N < length (emissions (stateChanges query afs events)))%nat
  /\ e = concat (take (S N) (emissions (stateChanges query afs events))).
Proof.
  unfold auditTrail. rewrite emissions_rx_scan. intros H.
  assert (HN : (N < length (emissions (stateChanges query afs events)))%nat).
  { apply lookup_lt_Some in H. rewrite running_length in H. exact H. }
  split; [exact HN |]. rewrite running_app_lookup in H by exact HN.
  inversion H. reflexivity.
Qed.

Lemma In_concat_take {A} (bs : list (list A)) (n : nat) (x : A) :
  In x (concat (take n bs)) -> exists b, In b bs /\ In x b.
Proof.
  intros H. apply in_concat in H. destruct H as [b [Hb Hx]].
  exists b. split; [| exact Hx].
  apply list_elem_of_In in Hb. apply list_elem_of_In.
  apply elem_of_take in Hb. destruct Hb as [i [Hi _]].
  apply list_elem_of_lookup_2 in Hi. exact Hi.
Qed.

(** X3: with a non-empty [events] every emission of [auditTrail] is
    non-empty and strictly longer than the one before it. *)
Theorem auditTrail_grows_strictly (query : Query) (afs : AngularFirestore)
    (events : list string) (N : nat) (e : list DocumentChangeAction) :
  events <> [] ->
  emissions (auditTrail query afs (Some events)) !! N = Some e ->
  e <> []
  /\ forall e', emissions (auditTrail query afs (Some events)) !! S N = Some e' ->
       (length e < length e')%nat.
Proof.
  intros Hne He. destruct events as [|ev evs]; [congruence |]. clear Hne.
  apply auditTrail_emission in He. destruct He as [HN ->].
  set (batches := emissions (stateChanges query afs (Some (ev :: evs)))) in *.
  assert (Hbatch : forall i b, batches !! i = Some b -> b <> []).
  { intros i b Hb. apply list_elem_of_lookup_2, list_elem_of_In in Hb.
    apply stateChanges_emitted in Hb. tauto. }
  split.
  - destruct (lookup_lt_is_Some_2 batches N HN) as [b Hb].
    rewrite (take_S_r batches N b Hb), concat_app. simpl. rewrite app_nil_r.
    intros H. apply app_eq_nil in H. apply (Hbatch N b Hb). tauto.
  - intros e' He'. apply auditTrail_emission in He'. destruct He' as [HSN ->].
    fold batches in HSN |- *.
    destruct (lookup_lt_is_Some_2 batches (S N) HSN) as [b Hb].
    rewrite (take_S_r batches (S N) b Hb), concat_app, length_app. simpl.
    rewrite app_nil_r. specialize (Hbatch (S N) b Hb).
    destruct b; [congruence | simpl; lia].
Qed.

Lemma auditTrail_grows_strictly_witness :
  [action added D1 (-1) 0; action removed D2 0 (-1)] <> []
  /\ forall e',
       emissions (auditTrail (listening [Next mixedDelta; Next emptySnapshot; Next twoAdded])
                    (host 0) (Some ["added"; "removed"]%string)) !! 1%nat = Some e' ->
       (length [action added D1 (-1) 0; action removed D2 0 (-1)] < length e')%nat.
Proof.
  apply (auditTrail_grows_strictly
           (listening [Next mixedDelta; Next emptySnapshot; Next twoAdded]) (host 0)
           ["added"; "removed"]%string 0).
  - discriminate.
  - reflexivity.
Defined.

(** X4: an earlier emission of [auditTrail] is a prefix of every later one,
    so a change keeps the position at which it first appeared. *)
Theorem auditTrail_prefix_of_later (query : Query) (afs : AngularFirestore)
    (events : option (list string)) (M N : nat) (e e' : list DocumentChangeAction) :
  (M <= N)%nat ->
  emissions (auditTrail query afs events) !! M = Some e ->
  emissions (auditTrail query afs events) !! N = Some e' ->
  e `prefix_of` e'
  /\ forall i c, e !! i = Some c -> e' !! i = Some c.
Proof.
  intros HMN He He'.
  apply auditTrail_emission in He. destruct He as [_ ->].
  apply auditTrail_emission in He'. destruct He' as [_ ->].
  set (batches := emissions (stateChanges query afs events)).
  assert (Hp : concat (take (S M) batches) `prefix_of` concat (take (S N) batches)).
  { exists (concat (drop (S M) (take (S N) batches))).
    rewrite <- concat_app. f_equal.
    rewrite <- (take_drop (S M) (take (S N) batches)) at 1.
    f_equal. rewrite take_take. f_equal. lia. }
  split; [exact Hp |].
  intros i c Hc. destruct Hp as [k ->]. apply lookup_app_l_Some. exact Hc.
Qed.

Lemma auditTrail_prefix_of_later_witness :
  [action added D1 (-1) 0; action removed D2 0 (-1)]
    `prefix_of` [action added D1 (-1) 0; action removed D2 0 (-1);
                 action added D1 (-1) 0; action added D2 (-1) 1]
  /\ forall i c,
       [action added D1 (-1) 0; action removed D2 0 (-1)] !! i = Some c ->
       [action added D1 (-1) 0; action removed D2 0 (-1);
        action added D1 (-1) 0; action added D2 (-1) 1] !! i = Some c.
Proof.
  apply (auditTrail_prefix_of_later
           (listening [Next mixedDelta; Next emptySnapshot; Next twoAdded]) (host 0)
           None 0 2).
  - lia.
  - reflexivity.
  - reflexivity.
Defined.

(** X5: every change in an emission of [auditTrail] was reported by the
    listener in one of its batches, and with a non-empty [events] it is of a
    requested kind. *)
Theorem auditTrail_holds_listener_changes (query : Query) (afs : AngularFirestore)
    (events : option (list string)) (e : list DocumentChangeAction)
    (c : DocumentChangeAction) :
  In e (emissions (auditTrail query afs events)) ->
  In c e ->
  (exists decoded,
     In decoded (emissions (docChanges query (outsideAngular (schedulers afs))))
     /\ In c decoded)
  /\ (forall evs, events = Some evs -> evs <> [] -> In (typeName (type c)) evs).
Proof.
  intros He Hc.
  apply list_elem_of_In, list_elem_of_lookup_1 in He. destruct He as [N He].
  apply auditTrail_emission in He. destruct He as [_ ->].
  apply In_concat_take in Hc. destruct Hc as [batch [Hb Hc]].
  split.
  - destruct events as [[|ev evs]|].
    + apply keepUnstableUntilFirst_emits in Hb. exists batch. auto.
    + apply stateChanges_emitted in Hb. destruct Hb as [_ [decoded [Hd ->]]].
      exists decoded. split; [exact Hd |]. apply filter_In in Hc. tauto.
    + apply keepUnstableUntilFirst_emits in Hb. exists batch. auto.
  - intros evs -> Hne. destruct evs as [|ev evs]; [congruence |].
    apply stateChanges_emitted in Hb. destruct Hb as [_ [decoded [_ ->]]].
    apply filter_In in Hc. apply requested_In. tauto.
Qed.

Lemma auditTrail_holds_listener_changes_witness :
  (exists decoded,
     In decoded (emissions (docChanges (listening [Next mixedDelta; Next twoAdded])
                                       (outsideAngular (schedulers (host 0)))))
     /\ In (action removed D2 0 (-1)) decoded)
  /\ (forall evs, Some ["removed"%string] = Some evs -> evs <> [] ->
        In (typeName (type (action removed D2 0 (-1)))) evs).
Proof.
  apply (auditTrail_holds_listener_changes
           (listening [Next mixedDelta; Next twoAdded]) (host 0)
           (Some ["removed"%string]) [action removed D2 0 (-1)]).
  - simpl. left. reflexivity.
  - simpl. left. reflexivity.
Defined.

(** ** [valueChanges]: the injected id *)

Lemma lookup_map {A B} (f : A -> B) (l : list A) (i : nat) :
  map f l !! i = f <$> (l !! i).
Proof.
  revert i. induction l as [|x l IH]; intros [|i]; simpl; auto.
Qed.

Lemma valueChanges_emitted_idField (query : Query) (afs : AngularFirestore)
    (k : string) (payloads : list (gmap string FieldValue)) :
  k <> ""%string ->
  In payloads (emissions (valueChanges query afs {| idField := Some k |})) ->
  exists snap,
    In snap (emissions (onSnapshot query))
    /\ payloads = map (fun a => <[k := FString (id a)]> (data a)) (docs snap).
Proof.
  intros Hk H. rewrite valueChanges_unfold in H. apply keepUnstableUntilFirst_emits in H.
  unfold valueChanges_upstream, fromCollectionRef in H.
  rewrite !emissions_rx_map in H.
  apply in_map_iff in H. destruct H as [actions [<- H]].
  apply in_map_iff in H. destruct H as [snap [<- H]].
  exists snap. split; [exact H |]. simpl.
  apply String.eqb_neq in Hk. rewrite Hk. reflexivity.
Qed.

(** X6: with a non-empty [idField], [valueChanges] emits one payload per
    document, in the documents' order; the payload has the data's fields and
    [idField]; taking [idField] out of it gives the data without that field,
    hence the data itself when the data has no such field; and when the data
    already holds the id under [idField] the payload is the data. *)
Theorem valueChanges_strip_idField (query : Query) (afs : AngularFirestore)
    (k : string) (payloads : list (gmap string FieldValue)) :
  k <> ""%string ->
  In payloads (emissions (valueChanges query afs {| idField := Some k |})) ->
  exists snap,
    In snap (emissions (onSnapshot query))
    /\ length payloads = length (docs snap)
    /\ forall i a, docs snap !! i = Some a ->
         exists p,
           payloads !! i = Some p
           /\ dom p = {[k]} ∪ dom (data a)
           /\ delete k p = delete k (data a)
           /\ (data a !! k = None -> delete k p = data a)
           /\ (data a !! k = Some (FString (id a)) -> p = data a).
Proof.
  intros Hk H. apply valueChanges_emitted_idField in H; [| exact Hk].
  destruct H as [snap [Hs ->]]. exists snap.
  split; [exact Hs | split; [apply length_map |]].
  intros i a Ha. exists (<[k := FString (id a)]> (data a)).
  split; [rewrite lookup_map, Ha; reflexivity |].
  split; [apply dom_insert_L |].
  split; [apply delete_insert_eq |].
  split; [intros Hnone; apply delete_insert_id; exact Hnone |].
  intros Hsome. apply insert_id. exact Hsome.
Qed.

Lemma valueChanges_strip_idField_witness :
  exists snap,
    In snap (emissions (onSnapshot (listening [Next twoAdded])))
    /\ length [ <["uid"%string := FString "d1"]> (data D1);
                <["uid"%string := FString "d2"]> (data D2) ]
       = length (docs snap)
    /\ forall i a, docs snap !! i = Some a ->
         exists p,
           [ <["uid"%string := FString "d1"]> (data D1);
             <["uid"%string := FString "d2"]> (data D2) ] !! i = Some p
           /\ dom p = {["uid"%string]} ∪ dom (data a)
           /\ delete "uid"%string p = delete "uid"%string (data a)
           /\ (data a !! "uid"%string = None -> delete "uid"%string p = data a)
           /\ (data a !! "uid"%string = Some (FString (id a)) -> p = data a).
Proof.
  apply (valueChanges_strip_idField (listening [Next twoAdded]) (host 0) "uid"%string).
  - discriminate.
  - rewrite valueChanges_unfold. simpl. left. reflexivity.
Defined.

(** X7: with a non-empty [idField] the payloads tell the documents apart:
    two emitted payloads that are equal come from documents with the same
    id. *)
Theorem valueChanges_payload_determines_id (query : Query) (afs : AngularFirestore)
    (k : string) (payloads : list (gmap string FieldValue)) :
  k <> ""%string ->
  In payloads (emissions (valueChanges query afs {| idField := Some k |})) ->
  exists snap,
    In snap (emissions (onSnapshot query))
    /\ forall i j p, payloads !! i = Some p -> payloads !! j = Some p ->
         exists a b,
           docs snap !! i = Some a /\ docs snap !! j = Some b /\ id a = id b.
Proof.
  intros Hk H. apply valueChanges_emitted_idField in H; [| exact Hk].
  destruct H as [snap [Hs ->]]. exists snap. split; [exact Hs |].
  intros i j p Hi Hj. rewrite lookup_map in Hi, Hj.
  destruct (docs snap !! i) as [a|]; [| discriminate].
  destruct (docs snap !! j) as [b|]; [| discriminate].
  simpl in Hi, Hj. exists a, b. split; [reflexivity | split; [reflexivity |]].
  assert (Ha : p !! k = Some (FString (id a))).
  { inversion Hi. apply lookup_insert_eq. }
  assert (Hb : p !! k = Some (FString (id b))).
  { inversion Hj. apply lookup_insert_eq. }
  congruence.
Qed.

Lemma valueChanges_payload_determines_id_witness :
  exists snap,
    In snap (emissions (onSnapshot (listening [Next twoAdded])))
    /\ forall i j p,
         [ <["uid"%string := FString "d1"]> (data D1);
           <["uid"%string := FString "d2"]> (data D2) ] !! i = Some p ->
         [ <["uid"%string := FString "d1"]> (data D1);
           <["uid"%string := FString "d2"]> (data D2) ] !! j = Some p ->
         exists a b,
           docs snap !! i = Some a /\ docs snap !! j = Some b /\ id a = id b.
Proof.
  apply (valueChanges_payload_determines_id
           (listening [Next twoAdded]) (host 0) "uid"%string).
  - discriminate.
  - rewrite valueChanges_unfold. simpl. left. reflexivity.
Defined.

Lemma rx_map_rx_map {A B C} (f : B -> C) (g : A -> B) (o : Observable A) :
  rx_map f (rx_map g o) = rx_map (fun a => f (g a)) o.
Proof.
  induction o as [|[a|] o IH]; simpl; [reflexivity | |]; rewrite IH; reflexivity.
Qed.

(** X8: [valueChanges] reads nothing of the listener's deltas but their
    [docs]: two queries whose deltas carry the same documents at the same
    moments give the same observable, whatever their change records and
    whatever a one-shot fetch of them returns. *)
Theorem valueChanges_reads_docs_only (query1 query2 : Query) (afs : AngularFirestore)
    (options : ValueChangesOptions) :
  rx_map docs (onSnapshot query1) = rx_map docs (onSnapshot query2) ->
  valueChanges query1 afs options = valueChanges query2 afs options.
Proof.
  intros H. unfold valueChanges, fromCollectionRef. f_equal.
  rewrite !rx_map_rx_map. simpl.
  rewrite <- (rx_map_rx_map _ docs (onSnapshot query1)).
  rewrite <- (rx_map_rx_map _ docs (onSnapshot query2)).
  rewrite H. reflexivity.
Qed.

Lemma valueChanges_reads_docs_only_witness :
  valueChanges (listening [Next twoAdded; MarkerCleared]) (host 1)
    {| idField := Some "uid"%string |}
  = valueChanges
      {| onSnapshot := [Next {| docs := [D1; D2]; docChanges_of := [] |}; MarkerCleared];
         query_get := fun _ => Resolved emptySnapshot |}
      (host 1) {| idField := Some "uid"%string |}.
Proof.
  apply (valueChanges_reads_docs_only
           (listening [Next twoAdded; MarkerCleared])
           {| onSnapshot := [Next {| docs := [D1; D2]; docChanges_of := [] |}; MarkerCleared];
              query_get := fun _ => Resolved emptySnapshot |}
           (host 1) {| idField := Some "uid"%string |}).
  reflexivity.
Defined.

(** ** [get]: repeated calls *)

(** X9: [get] caches nothing: a consumer that calls it once per element of
    a list of options issues that many fetches, in call order and with the
    options given, receives for each call what a single call delivers, and
    leaves the subscriptions as they were. *)
Theorem get_fetches_every_time (query : Query) (afs : AngularFirestore)
    (optionss : list (option GetOptions)) (w : World) :
  fetchLog (snd (getEach query afs optionss w)) = rev optionss ++ fetchLog w
  /\ subscriptions (snd (getEach query afs optionss w)) = subscriptions w
  /\ fst (getEach query afs optionss w)
     = map (fun options => fst (get query afs options w)) optionss.
Proof.
  revert w. induction optionss as [|options rest IH]; intros w; [auto |].
  destruct (IH (snd (get query afs options w))) as [Hlog [Hsubs Hout]].
  change (getEach query afs (options :: rest) w)
    with (let '(others, w') := getEach query afs rest (snd (get query afs options w)) in
          (fst (get query afs options w) :: others, w')).
  destruct (getEach query afs rest (snd (get query afs options w))) as [others w'] eqn:E.
  simpl in *. split; [| split].
  - rewrite Hlog, <- app_assoc. reflexivity.
  - exact Hsubs.
  - rewrite Hout. reflexivity.
Qed.
